(** * Block_Mining: the ledger core of [bl_gui.py]

    A shallow embedding of the [Block] and [Blockchain] classes and of the
    mining callback of [bl_gui.py], with the properties of the ledger
    (genesis, hash chaining, proof of work, queue transfer, stability of
    sealed blocks) proved over it.

    Python objects that the program shares and mutates (the list bound to
    [pending_transactions], which [create_block] hands to the new block
    without copying) live in an explicit store; integers are [Z]; text is
    [string]; byte strings are [list byte]. *)

From Stdlib Require Import ZArith List String Ascii Strings.Byte DecimalString.
From Stdlib Require Import Floats.SpecFloat.
From stdpp Require Import gmap strings list fin_maps.
Import ListNotations.

Set Warnings "-register-all".

Local Open Scope string_scope.
Local Open Scope list_scope.
Local Open Scope Z_scope.

(** ** hashlib.sha256

    SHA-256 as in FIPS 180-4, on bytes. A 32-bit word is an integer below
    2^32; every addition and left shift is cut back to 32 bits by [w32]. *)

Module SHA256.

Definition w32 (x : Z) : Z := Z.land x 0xffffffff.

Definition add32 (x y : Z) : Z := w32 (x + y).

Definition rotr (n x : Z) : Z :=
  Z.lor (Z.shiftr x n) (w32 (Z.shiftl x (32 - n))).

Definition Ch (x y z : Z) : Z :=
  Z.lxor (Z.land x y) (Z.land (Z.lxor x 0xffffffff) z).

Definition Maj (x y z : Z) : Z :=
  Z.lxor (Z.lxor (Z.land x y) (Z.land x z)) (Z.land y z).

Definition Sigma0 (x : Z) : Z :=
  Z.lxor (Z.lxor (rotr 2 x) (rotr 13 x)) (rotr 22 x).

Definition Sigma1 (x : Z) : Z :=
  Z.lxor (Z.lxor (rotr 6 x) (rotr 11 x)) (rotr 25 x).

Definition sigma0 (x : Z) : Z :=
  Z.lxor (Z.lxor (rotr 7 x) (rotr 18 x)) (Z.shiftr x 3).

Definition sigma1 (x : Z) : Z :=
  Z.lxor (Z.lxor (rotr 17 x) (rotr 19 x)) (Z.shiftr x 10).

(** The constants are fractional bits of roots of the first primes. *)
Definition is_prime (p : Z) : bool :=
  forallb (fun d => negb (p mod Z.of_nat d =? 0))
          (seq 2 (Z.to_nat (Z.sqrt p) - 1)).

Definition primes : list Z :=
  Eval cbv in filter is_prime (map Z.of_nat (seq 2 310)).

(** The integer cube root of [n], found one bit at a time from bit
    [bits - 1] down. *)
Fixpoint root3 (bits : nat) (r n : Z) : Z :=
  match bits with
  | O => r
  | S bits' =>
      let r' := r + 2 ^ Z.of_nat bits' in
      root3 bits' (if r' * r' * r' <=? n then r' else r) n
  end.

(** The first 32 bits of the fractional parts of the cube roots of the
    first 64 primes. *)
Definition K : list Z :=
  Eval cbv in map (fun p => w32 (root3 40 0 (p * 2 ^ 96))) primes.

(** The eight working variables, and the chaining value. *)
Record regs : Type := Regs {
  ra : Z; rb : Z; rc : Z; rd : Z; re : Z; rf : Z; rg : Z; rh : Z
}.

(** The initial value: the first 32 bits of the fractional parts of the
    square roots of the first 8 primes. *)
Definition H0 : regs :=
  Eval cbv in
    match map (fun p => w32 (Z.sqrt (p * 2 ^ 64))) primes with
    | a :: b :: c :: d :: e :: f :: g :: h :: _ => Regs a b c d e f g h
    | _ => Regs 0 0 0 0 0 0 0 0
    end.

(** Padding: the bit 1, zero bits up to 448 modulo 512, then the length in
    bits as a 64-bit big-endian integer. *)
Definition be_bytes (n : nat) (x : Z) : list Z :=
  map (fun i => Z.land (Z.shiftr x (8 * Z.of_nat i)) 255) (rev (seq 0 n)).

Definition pad (msg : list Z) : list Z :=
  let len := Z.of_nat (length msg) in
  let k := (55 - len) mod 64 in
  msg ++ 128 :: repeat 0 (Z.to_nat k) ++ be_bytes 8 (8 * len).

(** Big-endian 32-bit words of a byte sequence whose length is a multiple
    of four (trailing bytes, which padding never leaves, are dropped). *)
Fixpoint words (bs : list Z) : list Z :=
  match bs with
  | b0 :: b1 :: b2 :: b3 :: rest =>
      (((b0 * 256 + b1) * 256 + b2) * 256 + b3) :: words rest
  | _ => []
  end.

(** The message schedule: [win] holds the sixteen latest words, the newest
    first; [n] further words are produced. *)
Fixpoint extend (n : nat) (win : list Z) : list Z :=
  match n with
  | O => []
  | S n' =>
      let wt := add32 (add32 (add32 (sigma1 (nth 1 win 0)) (nth 6 win 0))
                              (sigma0 (nth 14 win 0))) (nth 15 win 0) in
      wt :: extend n' (wt :: firstn 15 win)
  end.

Definition schedule (block : list Z) : list Z :=
  block ++ extend 48 (rev block).

Definition round (s : regs) (kw : Z * Z) : regs :=
  let t1 := add32 (add32 (add32 (add32 (rh s) (Sigma1 (re s)))
                                (Ch (re s) (rf s) (rg s))) (fst kw)) (snd kw) in
  let t2 := add32 (Sigma0 (ra s)) (Maj (ra s) (rb s) (rc s)) in
  Regs (add32 t1 t2) (ra s) (rb s) (rc s) (add32 (rd s) t1) (re s) (rf s) (rg s).

Definition compress (h : regs) (block : list Z) : regs :=
  let s := fold_left round (combine K (schedule block)) h in
  Regs (add32 (ra h) (ra s)) (add32 (rb h) (rb s))
       (add32 (rc h) (rc s)) (add32 (rd h) (rd s))
       (add32 (re h) (re s)) (add32 (rf h) (rf s))
       (add32 (rg h) (rg s)) (add32 (rh h) (rh s)).

(** The padded message is consumed sixteen words at a time. *)
Fixpoint blocks (fuel : nat) (h : regs) (ws : list Z) : regs :=
  match fuel, ws with
  | S fuel', _ :: _ => blocks fuel' (compress h (firstn 16 ws)) (skipn 16 ws)
  | _, _ => h
  end.

Definition digest_words (msg : list byte) : list Z :=
  let ws := words (pad (map (fun b => Z.of_N (Byte.to_N b)) msg)) in
  let h := blocks (length ws) H0 ws in
  [ra h; rb h; rc h; rd h; re h; rf h; rg h; rh h].

Definition hex_digit (x : Z) : ascii :=
  nth (Z.to_nat x) (list_ascii_of_string "0123456789abcdef") "0"%char.

Definition hex_word (x : Z) : list ascii :=
  map (fun i => hex_digit (Z.land (Z.shiftr x (4 * Z.of_nat i)) 15))
      (rev (seq 0 8)).

(** [hashlib.sha256(msg).hexdigest()] *)
Definition hexdigest (msg : list byte) : string :=
  string_of_list_ascii (concat (map hex_word (digest_words msg))).

End SHA256.

(** [s.encode()] for text held as its UTF-8 bytes. *)
Definition encode (s : string) : list byte := list_byte_of_string s.

(** ** Python values *)

(** A Python [float] is an IEEE 754 binary64 value. *)
Definition float : Type := spec_float.

(** [str(n)] and [f"{n}"] for an [int]: the decimal digits, with a minus sign
    for a negative number. *)
Definition str_int (n : Z) : string := NilZero.string_of_int (Z.to_int n).

(** The amount of a transaction: [add_transaction_gui] passes a [float],
    [mine_block_gui] the [int] 1. *)
Inductive number : Type :=
| Int (n : Z)
| Float (x : float).

(** The values a block is made of, as [str] sees them. A [dict] keeps its
    insertion order, so it is a list of key-value pairs. *)
Inductive pyobj : Type :=
| PyInt (n : Z)
| PyFloat (x : float)
| PyStr (s : string)
| PyList (items : list pyobj)
| PyDict (items : list (string * pyobj)).

(** The exceptions the ledger can raise. *)
Inductive exn : Type :=
| IndexError.

(** How a call ends: it returns, it raises, or the fuel given to its search
    loop ran out before the loop did. *)
Inductive outcome (A : Type) : Type :=
| Returned (a : A)
| Raised (e : exn)
| OutOfFuel.

Arguments Returned {A} a.
Arguments Raised {A} e.
Arguments OutOfFuel {A}.

(** ** class Block *)

(** The transaction dict [{"sender": .., "recipient": .., "amount": ..}]. *)
Record Transaction : Type := mkTransaction {
  sender : string;
  recipient : string;
  amount : number
}.

(** A list object is named by its address in the store. *)
Abbreviation loc := nat (only parsing).

Record Block : Type := mkBlock {
  index : Z;
  timestamp : float;
  transactions : loc;
  proof : Z;
  previous_hash : string
}.

(** The contents of the list at an address ([[]] for an address that names
    no list, which a Python reference never is). *)
Definition deref (h : gmap loc (list Transaction)) (l : loc) : list Transaction :=
  default [] (h !! l).

Definition number_obj (a : number) : pyobj :=
  match a with
  | Int n => PyInt n
  | Float x => PyFloat x
  end.

Definition transaction_obj (t : Transaction) : pyobj :=
  PyDict [("sender", PyStr (sender t));
          ("recipient", PyStr (recipient t));
          ("amount", number_obj (amount t))].

(** [Block.to_dict] *)
Definition to_dict (h : gmap loc (list Transaction)) (b : Block) : pyobj :=
  PyDict [("index", PyInt (index b));
          ("timestamp", PyFloat (timestamp b));
          ("transactions", PyList (map transaction_obj (deref h (transactions b))));
          ("proof", PyInt (proof b));
          ("previous_hash", PyStr (previous_hash b))].

(** ** class Blockchain *)

(** The ledger object and the store its two list references point into:
    [chain] is held by value, since nothing else ever refers to that list;
    [pending_transactions] is the address of the list the attribute is bound
    to, which [create_block] shares with the block it builds. *)
Record Blockchain : Type := mkBlockchain {
  heap : gmap loc (list Transaction);
  chain : list Block;
  pending_transactions : loc
}.

(** Methods run on the ledger; a method that raises leaves the ledger as it
    was at the [raise]. *)
Definition M (A : Type) : Type := Blockchain -> outcome A * Blockchain.

Definition ret {A : Type} (a : A) : M A := fun self => (Returned a, self).

Definition bind {A B : Type} (m : M A) (k : A -> M B) : M B :=
  fun self =>
    match m self with
    | (Returned a, self') => k a self'
    | (Raised e, self') => (Raised e, self')
    | (OutOfFuel, self') => (OutOfFuel, self')
    end.

Notation "x <- m ;; k" := (bind m (fun x => k))
  (at level 100, m at next level, right associativity).
Notation "m ;; k" := (bind m (fun _ => k))
  (at level 100, right associativity).

Definition raise {A : Type} (e : exn) : M A := fun self => (Raised e, self).

Definition gets {A : Type} (f : Blockchain -> A) : M A :=
  fun self => (Returned (f self), self).

(** [[]]: a new list object, at an address no object has. *)
Definition new_list : M loc :=
  fun self =>
    let l := fresh (dom (heap self)) in
    (Returned l, mkBlockchain (<[l := []]> (heap self)) (chain self)
                              (pending_transactions self)).

(** [xs.append(t)] for the list at [l]. *)
Definition list_append (l : loc) (t : Transaction) : M unit :=
  fun self =>
    (Returned tt, mkBlockchain (<[l := deref (heap self) l ++ [t]]> (heap self))
                               (chain self) (pending_transactions self)).

(** [self.pending_transactions = l] *)
Definition set_pending_transactions (l : loc) : M unit :=
  fun self => (Returned tt, mkBlockchain (heap self) (chain self) l).

(** [self.chain.append(b)] *)
Definition chain_append (b : Block) : M unit :=
  fun self =>
    (Returned tt, mkBlockchain (heap self) (chain self ++ [b])
                               (pending_transactions self)).

(** [self.chain[-1]], which is also the [last_block] property. *)
Definition last_block : M Block :=
  fun self =>
    match last (chain self) with
    | Some b => ret b self
    | None => raise IndexError self
    end.

(** Truth value of an [Optional[str]]: [None] and the empty string are
    false. *)
Definition truthy (s : option string) : bool :=
  match s with
  | Some (String _ _) => true
  | _ => false
  end.

(** [Blockchain.valid_proof] *)
Definition valid_proof (last_proof proof : Z) : bool :=
  let guess := encode (str_int last_proof +:+ str_int proof) in
  let guess_hash := SHA256.hexdigest guess in
  String.eqb (substring 0 4 guess_hash) "0000".

(** [Blockchain.proof_of_work]: the loop counts up from [proof]; [fuel]
    bounds the number of tests of the loop condition. *)
Fixpoint proof_of_work_from (fuel : nat) (last_proof proof : Z) : option Z :=
  match fuel with
  | O => None
  | S fuel' =>
      if valid_proof last_proof proof then Some proof
      else proof_of_work_from fuel' last_proof (proof + 1)
  end.

Definition proof_of_work (fuel : nat) (last_proof : Z) : option Z :=
  proof_of_work_from fuel last_proof 0.

(** [Blockchain.add_transaction] *)
Definition add_transaction (sender recipient : string) (amount : number) : M Z :=
  let transaction := mkTransaction sender recipient amount in
  pending <- gets pending_transactions ;;
  list_append pending transaction ;;
  b <- last_block ;;
  ret (index b + 1).

(** [repr] of a [float] and of a [str] are the interpreter's: the ledger is
    modelled over any pair of them. *)
Class Repr : Type := {
  float_repr : float -> string;
  str_repr : string -> string
}.

Section Ledger.

Context `{Repr}.

Definition join (sep : string) (parts : list string) : string :=
  match parts with
  | [] => EmptyString
  | p :: ps => fold_left (fun acc q => acc +:+ sep +:+ q) ps p
  end.

(** [repr(o)], which is [str(o)] for a [dict] and for a [list]. *)
Fixpoint repr (o : pyobj) : string :=
  match o with
  | PyInt n => str_int n
  | PyFloat x => float_repr x
  | PyStr s => str_repr s
  | PyList items => "[" +:+ join ", " (map repr items) +:+ "]"
  | PyDict items =>
      "{" +:+ join ", " (map (fun kv => str_repr (fst kv) +:+ ": " +:+ repr (snd kv))
                            items) +:+ "}"
  end.

(** [Blockchain.hash] *)
Definition hash (h : gmap loc (list Transaction)) (block : Block) : string :=
  let block_string := encode (repr (to_dict h block)) in
  SHA256.hexdigest block_string.

(** [Blockchain.create_block]; [now] is what [time.time()] returns. The
    arguments of [Block(...)] are evaluated in the order they are written,
    so [self.chain[-1]] can raise only before anything is changed. *)
Definition create_block (proof : Z) (previous_hash : option string)
    (now : float) : M Block :=
  n <- gets (fun self => length (chain self)) ;;
  pending <- gets pending_transactions ;;
  previous_hash' <- (if truthy previous_hash then ret (default EmptyString previous_hash)
                     else (b <- last_block ;; h <- gets heap ;; ret (hash h b))) ;;
  let block := mkBlock (Z.of_nat n + 1) now pending proof previous_hash' in
  l <- new_list ;;
  set_pending_transactions l ;;
  chain_append block ;;
  ret block.

(** [Blockchain.__init__], from the state in which [self.chain] is empty and
    [self.pending_transactions] is a new empty list. *)
Definition blank : Blockchain := mkBlockchain {[ 0%nat := [] ]} [] 0%nat.

Definition init (now : float) : M unit :=
  create_block 1 (Some "0") now ;;
  ret tt.

(** [Blockchain()] *)
Definition new_Blockchain (now : float) : Blockchain := snd (init now blank).

(** [mine_block_gui], on the global [blockchain]; the message box and
    [display_chain] only read the ledger. The sealed block is returned. *)
Definition mine_block_gui (fuel : nat) (now : float) : M Block :=
  b <- last_block ;;
  let last_proof := proof b in
  proof <- (fun self => match proof_of_work fuel last_proof with
                        | Some p => (Returned p, self)
                        | None => (OutOfFuel, self)
                        end) ;;
  add_transaction "0" "miner_address" (Int 1) ;;
  block <- create_block proof None now ;;
  ret block.

(** *** Runs of the ledger

    What a caller can do to a ledger: submit a transaction
    ([add_transaction]), mine ([mine_block_gui]), or seal a block with a
    proof of its own ([create_block] with one argument). *)
Inductive call : Type :=
| Submit (sender recipient : string) (amount : number)
| Mine (fuel : nat) (now : float)
| Seal (proof : Z) (now : float).

Definition do_call (c : call) : M unit :=
  match c with
  | Submit sender recipient amount => add_transaction sender recipient amount ;; ret tt
  | Mine fuel now => mine_block_gui fuel now ;; ret tt
  | Seal proof now => create_block proof None now ;; ret tt
  end.

(** The ledger after a call that ended, by a return or by an exception; a
    search that did not end leaves no ledger to go on from. *)
Definition step (c : call) (self : Blockchain) : option Blockchain :=
  match do_call c self with
  | (OutOfFuel, _) => None
  | (_, self') => Some self'
  end.

Fixpoint run (cs : list call) (self : Blockchain) : option Blockchain :=
  match cs with
  | [] => Some self
  | c :: cs' =>
      match step c self with
      | Some self' => run cs' self'
      | None => None
      end
  end.

(** *** What the properties are stated with *)

(** The ledger after [self.pending_transactions.append(t)]. *)
Definition appended (t : Transaction) (self : Blockchain) : Blockchain :=
  mkBlockchain
    (<[pending_transactions self :=
         deref (heap self) (pending_transactions self) ++ [t]]> (heap self))
    (chain self) (pending_transactions self).

(** The ledger after block [b] took the pending list and a new empty list
    took its place. *)
Definition sealed (b : Block) (self : Blockchain) : Blockchain :=
  mkBlockchain (<[fresh (dom (heap self)) := []]> (heap self))
               (chain self ++ [b]) (fresh (dom (heap self))).

(** The block [create_block] builds, on a ledger whose last block is [b],
    when no previous hash is passed. *)
Definition next_block (p : Z) (now : float) (self : Blockchain) (b : Block) : Block :=
  mkBlock (Z.of_nat (length (chain self)) + 1) now (pending_transactions self) p
          (hash (heap self) b).

(** The pending queue, and the transactions of a block, as lists. *)
Definition pending (self : Blockchain) : list Transaction :=
  deref (heap self) (pending_transactions self).

Definition block_transactions (self : Blockchain) (b : Block) : list Transaction :=
  deref (heap self) (transactions b).

(** The reward [mine_block_gui] submits before it seals. *)
Definition reward : Transaction := mkTransaction "0" "miner_address" (Int 1).

(** Each block after the first holds the hash of the block before it. *)
Definition hash_chained (self : Blockchain) : Prop :=
  forall (i : nat) (b b' : Block),
    chain self !! i = Some b -> chain self !! S i = Some b' ->
    previous_hash b' = hash (heap self) b.

(** Each block after the first holds a proof that is valid for the proof
    of the block before it. *)
Definition proofs_valid (self : Blockchain) : Prop :=
  forall (i : nat) (b b' : Block),
    chain self !! i = Some b -> chain self !! S i = Some b' ->
    valid_proof (proof b) (proof b') = true.

(** The block at position [i], counted from 0, has index [i + 1]. *)
Definition indexed (self : Blockchain) : Prop :=
  forall (i : nat) (b : Block),
    chain self !! i = Some b -> index b = Z.of_nat i + 1.

(** The lists of the ledger are allocated, and the pending list is the list
    of no block. *)
Definition separated (self : Blockchain) : Prop :=
  is_Some (heap self !! pending_transactions self) /\
  forall b : Block, b ∈ chain self ->
    is_Some (heap self !! transactions b) /\
    transactions b <> pending_transactions self.

(** [self'] has the blocks of [self], with the transactions they had, and
    maybe more blocks after them. *)
Definition extends (self self' : Blockchain) : Prop :=
  (exists more, chain self' = chain self ++ more) /\
  forall b, b ∈ chain self ->
    block_transactions self' b = block_transactions self b.

(** What every call keeps. *)
Record invariant (self : Blockchain) : Prop := {
  inv_nonempty : chain self <> [];
  inv_indexed : indexed self;
  inv_separated : separated self;
  inv_chained : hash_chained self
}.

(** The calls the two buttons of the window make. *)
Definition submit_or_mine (c : call) : bool :=
  match c with
  | Submit _ _ _ | Mine _ _ => true
  | Seal _ _ => false
  end.

End Ledger.

(** ** What a run leaves in a ledger *)



(** A character of a hex digest. *)
Definition is_hex (c : ascii) : bool :=
  existsb (Ascii.eqb c) (list_ascii_of_string "0123456789abcdef").

(** ** The window

    The callbacks of the window run on the global [blockchain] and on the
    widgets they read and write: the three entries, the text that shows the
    chain, the message boxes and the windows of pending transactions they
    open. *)

(** [float(s)], with [None] for a [ValueError], and [time.ctime(t)] are the
    interpreter's. *)
Class Library : Type := {
  float_of_str : string -> option float;
  ctime : float -> string
}.

(** [messagebox.showinfo] and [messagebox.showerror]. *)
Inductive box : Type :=
| ShowInfo (title message : string)
| ShowError (title message : string).

(** What [view_transactions] puts in the window it opens: a text, or a
    label. *)
Inductive pending_view : Type :=
| PendingText (content : string)
| PendingLabel (text : string).

(** The widgets: the texts of the entries, the text of [chain_text] (without
    the newline a [Text] ends with), the boxes shown and the windows opened
    so far, the oldest first. *)
Record Window : Type := mkWindow {
  sender_entry : string;
  recipient_entry : string;
  amount_entry : string;
  chain_text : string;
  boxes : list box;
  views : list pending_view
}.

Record Program : Type := mkProgram {
  window : Window;
  blockchain : Blockchain
}.

(** Callbacks run on the program. *)
Definition G (A : Type) : Type := Program -> outcome A * Program.

Definition gbind {A B : Type} (m : G A) (k : A -> G B) : G B :=
  fun st =>
    match m st with
    | (Returned a, st') => k a st'
    | (Raised e, st') => (Raised e, st')
    | (OutOfFuel, st') => (OutOfFuel, st')
    end.

(** A method of the global [blockchain]. *)
Definition on_blockchain {A : Type} (m : M A) : G A :=
  fun st =>
    (fst (m (blockchain st)), mkProgram (window st) (snd (m (blockchain st)))).

Definition on_window (f : Window -> Window) : G unit :=
  fun st => (Returned tt, mkProgram (f (window st)) (blockchain st)).

Definition show (b : box) (w : Window) : Window :=
  mkWindow (sender_entry w) (recipient_entry w) (amount_entry w) (chain_text w)
           (boxes w ++ [b]) (views w).

(** [e.delete(0, tk.END)] for each of the three entries. *)
Definition clear_entries (w : Window) : Window :=
  mkWindow EmptyString EmptyString EmptyString (chain_text w) (boxes w) (views w).

Definition set_chain_text (text : string) (w : Window) : Window :=
  mkWindow (sender_entry w) (recipient_entry w) (amount_entry w) text
           (boxes w) (views w).

Definition open_view (v : pending_view) (w : Window) : Window :=
  mkWindow (sender_entry w) (recipient_entry w) (amount_entry w) (chain_text w)
           (boxes w) (views w ++ [v]).

Definition newline : string := String "010"%char EmptyString.

Section Window.

Context `{Repr} `{Library}.

(** [add_transaction_gui]: the [try] block ends at the [ValueError] of
    [float]; an exception of [add_transaction] is not caught, and leaves the
    entries as they are. *)
Definition add_transaction_gui : G unit :=
  fun st =>
    let sender := sender_entry (window st) in
    let recipient := recipient_entry (window st) in
    gbind
      (match float_of_str (amount_entry (window st)) with
       | Some amount =>
           gbind (on_blockchain (add_transaction sender recipient (Float amount)))
                 (fun _ => on_window
                             (show (ShowInfo "Success" "Transaction added successfully!")))
       | None =>
           on_window
             (show (ShowError "Error" "Invalid amount. Please enter a valid number."))
       end)
      (fun _ => on_window clear_entries) st.

(** The text of one block in [display_chain]. *)
Definition block_info (self : Blockchain) (block : Block) : string :=
  newline
  +:+ "        Block " +:+ str_int (index block) +:+ ":" +:+ newline
  +:+ "        Timestamp: " +:+ ctime (timestamp block) +:+ newline
  +:+ "        Transactions: "
  +:+ repr (PyList (map transaction_obj (block_transactions self block))) +:+ newline
  +:+ "        Proof: " +:+ str_int (proof block) +:+ newline
  +:+ "        Previous Hash: " +:+ previous_hash block +:+ newline +:+ newline
  +:+ "        ".

(** What [display_chain] leaves in [chain_text]: it deletes what is there and
    inserts the text of each block at the end. *)
Definition chain_display (self : Blockchain) : string :=
  String.concat EmptyString (map (block_info self) (chain self)).

Definition display_chain : G unit :=
  fun st => on_window (set_chain_text (chain_display (blockchain st))) st.

(** [str(a)] of an amount. *)
Definition str_number (a : number) : string :=
  match a with
  | Int n => str_int n
  | Float x => float_repr x
  end.

Definition transaction_info (t : Transaction) : string :=
  "Sender: " +:+ sender t +:+ ", Recipient: " +:+ recipient t
  +:+ ", Amount: " +:+ str_number (amount t) +:+ newline.

(** [view_transactions]: a list is true when it is not empty. *)
Definition view_transactions : G unit :=
  fun st =>
    match pending (blockchain st) with
    | [] => on_window (open_view (PendingLabel "No pending transactions.")) st
    | ts =>
        on_window
          (open_view (PendingText (String.concat EmptyString (map transaction_info ts))))
          st
    end.

(** [mine_block_gui] with what it shows: the box, then the chain. *)
Definition mine_block_gui_shown (fuel : nat) (now : float) : G unit :=
  gbind (on_blockchain (mine_block_gui fuel now))
        (fun block =>
           gbind (on_window
                    (show (ShowInfo "Success"
                             ("Block " +:+ str_int (index block)
                              +:+ " mined successfully!"))))
                 (fun _ => display_chain)).

(** The program when the window opens: a new [Blockchain], empty entries, and
    the chain displayed. *)
Definition start (now : float) : Program :=
  snd (display_chain
         (mkProgram (mkWindow EmptyString EmptyString EmptyString EmptyString [] [])
                    (new_Blockchain now))).

(** What the user does: types in an entry, or clicks a button. *)
Inductive event : Type :=
| Type_sender (text : string)
| Type_recipient (text : string)
| Type_amount (text : string)
| Click_add
| Click_mine (fuel : nat) (now : float)
| Click_view.

Definition set_sender (text : string) (w : Window) : Window :=
  mkWindow text (recipient_entry w) (amount_entry w) (chain_text w) (boxes w) (views w).

Definition set_recipient (text : string) (w : Window) : Window :=
  mkWindow (sender_entry w) text (amount_entry w) (chain_text w) (boxes w) (views w).

Definition set_amount (text : string) (w : Window) : Window :=
  mkWindow (sender_entry w) (recipient_entry w) text (chain_text w) (boxes w) (views w).

Definition callback (ev : event) : G unit :=
  match ev with
  | Type_sender text => on_window (set_sender text)
  | Type_recipient text => on_window (set_recipient text)
  | Type_amount text => on_window (set_amount text)
  | Click_add => add_transaction_gui
  | Click_mine fuel now => mine_block_gui_shown fuel now
  | Click_view => view_transactions
  end.

(** The program after an event: a callback that raises is given up where it
    is, and the main loop goes on. *)
Definition handle (ev : event) (st : Program) : option Program :=
  match callback ev st with
  | (OutOfFuel, _) => None
  | (_, st') => Some st'
  end.

Fixpoint handle_all (evs : list event) (st : Program) : option Program :=
  match evs with
  | [] => Some st
  | ev :: evs' =>
      match handle ev st with
      | Some st' => handle_all evs' st'
      | None => None
      end
  end.

(** The calls the window makes: submissions of a [float] amount, and
    mining. *)
Definition from_window (c : call) : bool :=
  match c with
  | Submit _ _ (Float _) => true
  | Submit _ _ (Int _) => false
  | Mine _ _ => true
  | Seal _ _ => false
  end.

End Window.

(** ** CPython's [repr]

    An instance of [Repr] to run the ledger with: [repr] of a [float] as
    CPython prints it, and of a [str] whose characters outside ASCII are all
    printable (those are copied as they are). *)

Module CPython.

Definition zeros (n : Z) : string :=
  string_of_list_ascii (repeat "0"%char (Z.to_nat n)).

(** The [k] with [10^(k-1) <= v / s < 10^k], for [v, s > 0]. *)
Fixpoint decimal_point_up (fuel : nat) (v s k : Z) : Z :=
  match fuel with
  | O => k
  | S fuel' => if v <? s then k else decimal_point_up fuel' v (10 * s) (k + 1)
  end.

Fixpoint decimal_point_down (fuel : nat) (v s k : Z) : Z :=
  match fuel with
  | O => k
  | S fuel' => if s <=? 10 * v then k else decimal_point_down fuel' (10 * v) s (k - 1)
  end.

Definition decimal_point (v s : Z) : Z :=
  if s <=? v then decimal_point_up 400 v s 0 else decimal_point_down 400 v s 0.

Fixpoint strip_zeros (fuel : nat) (d x : Z) : Z * Z :=
  match fuel with
  | O => (d, x)
  | S fuel' => if d mod 10 =? 0 then strip_zeros fuel' (d / 10) (x + 1) else (d, x)
  end.

(** The shortest decimal [d * 10^x] that rounds to the binary64 value
    [m * 2^e], and the nearest to it of those: with [n] digits, for the
    least [n] that has one. [lo] and [hi] bound the reals that round to the
    value; the bounds themselves do when the significand is even. *)
Fixpoint shortest (fuel : nat) (n k v lo hi s : Z) (closed : bool) : Z * Z :=
  match fuel with
  | O => (0, 0)
  | S fuel' =>
      let a := 10 ^ Z.max 0 (n - k) in
      let b := 10 ^ Z.max 0 (k - n) in
      let inside x := if closed then (lo * a <=? x) && (x <=? hi * a)
                      else (lo * a <? x) && (x <? hi * a) in
      let d0 := (v * a) / (s * b) in
      let d1 := d0 + 1 in
      let ok0 := inside (d0 * s * b) in
      let ok1 := inside (d1 * s * b) in
      let nearer0 := v * a - d0 * s * b <=? d1 * s * b - v * a in
      if ok0 && (negb ok1 || nearer0) then (d0, k - n)
      else if ok1 then (d1, k - n)
      else shortest fuel' (n + 1) k v lo hi s closed
  end.

Definition digits_of (m : positive) (e : Z) : string * Z :=
  let c := Z.max (e + Z.log2 (Zpos m) - 52) (-1074) in
  let t := Z.max 0 (2 - c) in
  let s := 2 ^ t in
  let v := Z.shiftl (Zpos m) (e + t) in
  let half := 2 ^ (c - 1 + t) in
  let boundary := (Z.shiftl (Zpos m) (e - c) =? 2 ^ 52) && (-1074 <? c) in
  let lo := if boundary then v - half / 2 else v - half in
  let hi := v + half in
  let closed := Z.even (Z.shiftl (Zpos m) (e - c)) in
  let k := decimal_point v s in
  let '(d, x) := shortest 18 1 k v lo hi s closed in
  let '(d', x') := strip_zeros 20 d x in
  let ds := str_int d' in
  (ds, x' + Z.of_nat (String.length ds)).

(** The layout of [repr]: exponent notation when the decimal point is more
    than 16 places right or 4 or more places left of the first digit. *)
Definition layout (ds : string) (decpt : Z) : string :=
  let n := Z.of_nat (String.length ds) in
  if (decpt <=? -4) || (16 <? decpt) then
    let ex := decpt - 1 in
    let mant := if n =? 1 then ds
                else substring 0 1 ds +:+ "." +:+ substring 1 (Z.to_nat (n - 1)) ds in
    let exs := str_int (Z.abs ex) in
    mant +:+ "e" +:+ (if ex <? 0 then "-" else "+")
         +:+ (if Z.abs ex <? 10 then "0" else EmptyString) +:+ exs
  else if decpt <=? 0 then "0." +:+ zeros (- decpt) +:+ ds
  else if decpt <? n then
    substring 0 (Z.to_nat decpt) ds +:+ "." +:+ substring (Z.to_nat decpt) (Z.to_nat (n - decpt)) ds
  else ds +:+ zeros (decpt - n) +:+ ".0".

Definition sign (s : bool) : string := if s then "-" else EmptyString.

Definition float_repr (x : float) : string :=
  match x with
  | S754_zero s => sign s +:+ "0.0"
  | S754_infinity s => sign s +:+ "inf"
  | S754_nan => "nan"
  | S754_finite s m e => let '(ds, decpt) := digits_of m e in sign s +:+ layout ds decpt
  end.

Definition hex2 (n : nat) : string :=
  String (SHA256.hex_digit (Z.of_nat (n / 16)))
    (String (SHA256.hex_digit (Z.of_nat (n mod 16))) EmptyString).

Definition escape (quote c : ascii) : string :=
  let n := nat_of_ascii c in
  if (Ascii.eqb c quote || Ascii.eqb c "092"%char)%bool
  then String "092"%char (String c EmptyString)
  else if (n =? 9)%nat then "\t"
  else if (n =? 10)%nat then "\n"
  else if (n =? 13)%nat then "\r"
  else if ((n <? 32) || (n =? 127))%nat then "\x" +:+ hex2 n
  else String c EmptyString.

Definition contains (c : ascii) (s : string) : bool :=
  existsb (Ascii.eqb c) (list_ascii_of_string s).

Definition str_repr (s : string) : string :=
  let quote := if contains "'"%char s && negb (contains "034"%char s)
               then "034"%char else "'"%char in
  String quote (String.concat EmptyString (map (escape quote) (list_ascii_of_string s)))
    +:+ String quote EmptyString.

End CPython.

#[export] Instance cpython : Repr :=
  {| float_repr := CPython.float_repr; str_repr := CPython.str_repr |}.

(** ** CPython's [float] and [time.ctime]

    An instance of [Library] to run the window with: [float] of a text in
    ASCII, and [time.ctime] of a finite time in a process whose time zone is
    UTC. *)

Module CPythonLibrary.

Definition is_space (c : ascii) : bool :=
  let n := nat_of_ascii c in
  ((9 <=? n) && (n <=? 13) || (n =? 32))%nat.

Definition is_digit (c : ascii) : bool :=
  let n := nat_of_ascii c in
  ((48 <=? n) && (n <=? 57))%nat.

Definition digit_value (c : ascii) : Z := Z.of_nat (nat_of_ascii c) - 48.

Fixpoint drop_spaces (cs : list ascii) : list ascii :=
  match cs with
  | c :: cs' => if is_space c then drop_spaces cs' else cs
  | [] => []
  end.

Definition strip (cs : list ascii) : list ascii :=
  rev (drop_spaces (rev (drop_spaces cs))).

Definition lower (c : ascii) : ascii :=
  let n := nat_of_ascii c in
  if ((65 <=? n) && (n <=? 90))%nat then ascii_of_nat (n + 32) else c.

(** The digits after a first digit: each a digit, or an underscore and a
    digit. The value and the number of digits read so far go along. *)
Fixpoint more_digits (cs : list ascii) (value count : Z) : Z * Z * list ascii :=
  match cs with
  | c :: cs' =>
      if is_digit c then more_digits cs' (10 * value + digit_value c) (count + 1)
      else
        match cs' with
        | d :: cs'' =>
            if Ascii.eqb c "_"%char && is_digit d
            then more_digits cs'' (10 * value + digit_value d) (count + 1)
            else (value, count, cs)
        | [] => (value, count, cs)
        end
  | [] => (value, count, cs)
  end.

(** A part made of digits, read on from the value [value]; [None] when the
    text does not start with a digit. *)
Definition digit_part (cs : list ascii) (value : Z) : option (Z * Z * list ascii) :=
  match cs with
  | c :: cs' =>
      if is_digit c then Some (more_digits cs' (10 * value + digit_value c) 1)
      else None
  | [] => None
  end.

Definition read_sign (cs : list ascii) : bool * list ascii :=
  match cs with
  | c :: cs' =>
      if Ascii.eqb c "-"%char then (true, cs')
      else if Ascii.eqb c "+"%char then (false, cs')
      else (false, cs)
  | [] => (false, cs)
  end.

(** The digits of a number, as an integer, and the number of them after the
    point. *)
Definition read_number (cs : list ascii) : option (Z * Z * list ascii) :=
  match digit_part cs 0 with
  | Some (n, _, rest) =>
      match rest with
      | c :: rest' =>
          if Ascii.eqb c "."%char then
            match digit_part rest' n with
            | Some (n', k, rest'') => Some (n', k, rest'')
            | None => Some (n, 0, rest')
            end
          else Some (n, 0, rest)
      | [] => Some (n, 0, rest)
      end
  | None =>
      match cs with
      | c :: rest' =>
          if Ascii.eqb c "."%char then digit_part rest' 0 else None
      | [] => None
      end
  end.

Definition read_exponent (cs : list ascii) : option (Z * list ascii) :=
  match cs with
  | c :: cs' =>
      if Ascii.eqb (lower c) "e"%char then
        let '(negative, cs'') := read_sign cs' in
        match digit_part cs'' 0 with
        | Some (x, _, rest) => Some (if negative then - x else x, rest)
        | None => None
        end
      else Some (0, cs)
  | [] => Some (0, cs)
  end.

(** The binary64 value nearest to [n * 10^d], ties to the even significand,
    for [n > 0]. *)
Definition nearest (negative : bool) (n d : Z) : float :=
  let magnitude := Z.of_nat (String.length (str_int n)) + d in
  if 310 <? magnitude then S754_infinity negative
  else if magnitude <? -330 then S754_zero negative
  else
    let num := n * 10 ^ Z.max d 0 in
    let den := 10 ^ Z.max (- d) 0 in
    let quotient ex := if 0 <=? ex then num / (den * 2 ^ ex)
                       else (num * 2 ^ (- ex)) / den in
    let ex0 := Z.log2 num - Z.log2 den - 52 in
    let ex1 := if 2 ^ 53 <=? quotient ex0 then ex0 + 1
               else if quotient ex0 <? 2 ^ 52 then ex0 - 1 else ex0 in
    let ex := Z.max ex1 (-1074) in
    let scaled_num := if 0 <=? ex then num else num * 2 ^ (- ex) in
    let scaled_den := if 0 <=? ex then den * 2 ^ ex else den in
    let q := scaled_num / scaled_den in
    let r := scaled_num mod scaled_den in
    let up := (scaled_den <? 2 * r) || ((scaled_den =? 2 * r) && Z.odd q) in
    let m := if up then q + 1 else q in
    let '(m', ex') := if m =? 2 ^ 53 then (2 ^ 52, ex + 1) else (m, ex) in
    if 971 <? ex' then S754_infinity negative
    else
      match m' with
      | Zpos p => S754_finite negative p ex'
      | _ => S754_zero negative
      end.

Definition word_is (w : string) (cs : list ascii) : bool :=
  String.eqb w (string_of_list_ascii (map lower cs)).

Definition float_of_str (s : string) : option float :=
  let '(negative, cs) := read_sign (strip (list_ascii_of_string s)) in
  if word_is "inf" cs || word_is "infinity" cs then Some (S754_infinity negative)
  else if word_is "nan" cs then Some S754_nan
  else
    match read_number cs with
    | Some (n, k, rest) =>
        match read_exponent rest with
        | Some (x, []) =>
            Some (if n =? 0 then S754_zero negative else nearest negative n (x - k))
        | _ => None
        end
    | None => None
    end.

(** The whole seconds of a time: its floor. *)
Definition seconds (t : float) : Z :=
  match t with
  | S754_finite s m e =>
      let v := if s then Zneg m else Zpos m in
      if 0 <=? e then v * 2 ^ e else v / 2 ^ (- e)
  | _ => 0
  end.

Definition two_digits (n : Z) : string :=
  (if n <? 10 then "0" else EmptyString) +:+ str_int n.

Definition day_name (n : Z) : string :=
  nth (Z.to_nat n) ["Sun"; "Mon"; "Tue"; "Wed"; "Thu"; "Fri"; "Sat"] "Sun".

Definition month_name (n : Z) : string :=
  nth (Z.to_nat (n - 1))
      ["Jan"; "Feb"; "Mar"; "Apr"; "May"; "Jun";
       "Jul"; "Aug"; "Sep"; "Oct"; "Nov"; "Dec"] "Jan".

(** The year, month and day of the day [days] after 1 January 1970. *)
Definition civil (days : Z) : Z * Z * Z :=
  let z := days + 719468 in
  let era := z / 146097 in
  let doe := z - era * 146097 in
  let yoe := (doe - doe / 1460 + doe / 36524 - doe / 146096) / 365 in
  let doy := doe - (365 * yoe + yoe / 4 - yoe / 100) in
  let mp := (5 * doy + 2) / 153 in
  let d := doy - (153 * mp + 2) / 5 + 1 in
  let m := if mp <? 10 then mp + 3 else mp - 9 in
  let y := yoe + era * 400 + (if m <=? 2 then 1 else 0) in
  (y, m, d).

Definition ctime (t : float) : string :=
  let secs := seconds t in
  let days := secs / 86400 in
  let rest := secs mod 86400 in
  let '(y, m, d) := civil days in
  day_name ((days + 4) mod 7) +:+ " " +:+ month_name m +:+ " "
  +:+ (if d <? 10 then " " else EmptyString) +:+ str_int d +:+ " "
  +:+ two_digits (rest / 3600) +:+ ":" +:+ two_digits (rest mod 3600 / 60) +:+ ":"
  +:+ two_digits (rest mod 60) +:+ " " +:+ str_int y.

End CPythonLibrary.

#[export] Instance cpython_library : Library :=
  {| float_of_str := CPythonLibrary.float_of_str; ctime := CPythonLibrary.ctime |}.

(** ** Sample data *)

Module Sample.

(** 1730000000.0, 1730000060.5 and 1730000120.25 as timestamps; 10.0 as an
    amount. *)
Definition t0 : float := S754_finite false 7256145920000000 (-22).
Definition t1 : float := S754_finite false 7256146173755392 (-22).
Definition t2 : float := S754_finite false 7256146424365056 (-22).
Definition ten : float := S754_finite false 5629499534213120 (-49).

Definition alice_bob : Transaction := mkTransaction "Alice" "Bob" (Float ten).
Definition bob_carol : Transaction := mkTransaction "Bob" "Carol" (Int 3).
Definition carol_alice : Transaction := mkTransaction "Carol" "Alice" (Float ten).

(** A new ledger and its first block. *)
Definition ledger0 : Blockchain := new_Blockchain t0.
Definition genesis : Block := mkBlock 1 t0 0%nat 1 "0".

(** Two blocks sealed by hand, each after a submission, and the ledgers
    on the way. *)
Definition calls : list call :=
  [Submit "Alice" "Bob" (Float ten); Seal 72608 t1;
   Submit "Bob" "Carol" (Int 3); Seal 24348 t2].

Definition ledger1 : Blockchain := appended alice_bob ledger0.
Definition block2 : Block := next_block 72608 t1 ledger1 genesis.
Definition ledger2 : Blockchain := sealed block2 ledger1.
Definition ledger3 : Blockchain := appended bob_carol ledger2.
Definition block3 : Block := next_block 24348 t2 ledger3 block2.
Definition ledger4 : Blockchain := sealed block3 ledger3.

(** Then a third block, and a submission after it. *)
Definition more_calls : list call :=
  [Submit "Carol" "Alice" (Float ten); Seal 7 t2; Submit "Alice" "Bob" (Float ten)].

Definition ledger5 : Blockchain := appended carol_alice ledger4.
Definition block4 : Block := next_block 7 t2 ledger5 block3.
Definition ledger6 : Blockchain := sealed block4 ledger5.
Definition ledger7 : Blockchain := appended alice_bob ledger6.



(** A ledger whose only block has proof 8848, with one transaction
    pending. *)
Definition ledger8848 : Blockchain :=
  mkBlockchain {[ 0%nat := []; 1%nat := [alice_bob] ]}
               [mkBlock 1 t0 0%nat 8848 "0"] 1%nat.


(** What a user does in the window: adds a transaction of 10 from Alice to
    Bob, tries one whose amount is not a number, and looks at what is
    pending; and the program after it. *)
Definition events : list event :=
  [Type_sender "Alice"; Type_recipient "Bob"; Type_amount "10"; Click_add;
   Type_amount "ten"; Click_add; Click_view].

Definition after_events : Program :=
  mkProgram
    (mkWindow EmptyString EmptyString EmptyString (chain_display ledger0)
       [ShowInfo "Success" "Transaction added successfully!";
        ShowError "Error" "Invalid amount. Please enter a valid number."]
       [PendingText (transaction_info alice_bob)])
    ledger1.

(** A program with the entries filled in, on a ledger. *)
Definition typed (amount : string) (self : Blockchain) : Program :=
  mkProgram (mkWindow "Alice" "Bob" amount (chain_display self) [] []) self.

End Sample.

(** * Properties *)

(** The digest is never computed on an unknown message. *)
#[local] Arguments SHA256.hexdigest : simpl never.
#[local] Arguments valid_proof : simpl never.
#[local] Arguments hash : simpl never.
#[local] Arguments str_int : simpl never.

(** ** The proof-of-work search *)

Lemma proof_of_work_from_sound (fuel : nat) (x c p : Z) :
  proof_of_work_from fuel x c = Some p ->
  valid_proof x p = true /\ c <= p /\
  forall c', c <= c' < p -> valid_proof x c' = false.
Proof.
  revert c. induction fuel as [|fuel IH]; intros c Hrun; cbn [proof_of_work_from] in Hrun.
  - discriminate.
  - destruct (valid_proof x c) eqn:Hc.
    + injection Hrun as <-. repeat split; [assumption | lia | intros; lia].
    + apply IH in Hrun as (Hp & Hle & Hmin).
      repeat split; [assumption | lia |].
      intros c' Hc'. destruct (Z.eq_dec c' c) as [-> | Hne]; [assumption |].
      apply Hmin. lia.
Qed.




(** A digest is 64 characters. *)
Lemma string_of_list_ascii_length (l : list ascii) :
  String.length (string_of_list_ascii l) = length l.
Proof. induction l as [|a l IH]; cbn; [reflexivity | rewrite IH; reflexivity]. Qed.

Lemma hex_word_length (x : Z) : length (SHA256.hex_word x) = 8%nat.
Proof. unfold SHA256.hex_word. rewrite length_map. reflexivity. Qed.

Lemma hexdigest_length (msg : list byte) :
  String.length (SHA256.hexdigest msg) = 64%nat.
Proof.
  unfold SHA256.hexdigest, SHA256.digest_words. cbv zeta.
  rewrite string_of_list_ascii_length. cbn [map concat].
  rewrite !length_app, !hex_word_length. reflexivity.
Qed.


(** ** The methods, call by call *)

Section Properties.

Context `{Repr}.

Lemma add_transaction_returns (sd rc : string) (am : number)
    (self : Blockchain) (b : Block) :
  last (chain self) = Some b ->
  add_transaction sd rc am self =
    (Returned (index b + 1), appended (mkTransaction sd rc am) self).
Proof.
  intros Hlast.
  unfold add_transaction, bind, gets, list_append, last_block, ret, appended.
  cbn. rewrite Hlast. reflexivity.
Qed.

Lemma add_transaction_raises (sd rc : string) (am : number) (self : Blockchain) :
  chain self = [] ->
  add_transaction sd rc am self =
    (Raised IndexError, appended (mkTransaction sd rc am) self).
Proof.
  intros Hnil.
  unfold add_transaction, bind, gets, list_append, last_block, ret, appended.
  cbn. rewrite Hnil. reflexivity.
Qed.

Lemma create_block_returns (p : Z) (now : float) (self : Blockchain) (b : Block) :
  last (chain self) = Some b ->
  create_block p None now self =
    (Returned (next_block p now self b), sealed (next_block p now self b) self).
Proof.
  intros Hlast.
  unfold create_block, bind, gets, last_block, ret, new_list,
    set_pending_transactions, chain_append, sealed, next_block.
  cbn. rewrite Hlast. reflexivity.
Qed.

Lemma create_block_raises (p : Z) (now : float) (self : Blockchain) :
  chain self = [] ->
  create_block p None now self = (Raised IndexError, self).
Proof.
  intros Hnil. unfold create_block, bind, gets, last_block. cbn.
  rewrite Hnil. reflexivity.
Qed.

Lemma mine_block_gui_returns (fuel : nat) (now : float) (self : Blockchain)
    (b : Block) (p : Z) :
  last (chain self) = Some b ->
  proof_of_work fuel (proof b) = Some p ->
  mine_block_gui fuel now self =
    (Returned (next_block p now (appended reward self) b),
     sealed (next_block p now (appended reward self) b) (appended reward self)).
Proof.
  intros Hlast Hpow. unfold mine_block_gui, bind at 1 2, last_block.
  rewrite Hlast. unfold ret at 1. cbv beta iota. rewrite Hpow. unfold bind at 1.
  rewrite (add_transaction_returns _ _ _ _ _ Hlast).
  unfold bind. fold reward.
  rewrite (create_block_returns p now (appended reward self) b Hlast).
  reflexivity.
Qed.

Lemma last_nonempty (self : Blockchain) :
  chain self <> [] -> exists b, last (chain self) = Some b.
Proof.
  intros Hne. destruct (last (chain self)) as [b|] eqn:Hlast; [eauto |].
  apply last_None in Hlast. contradiction.
Qed.

(** What a call does to a ledger with a block in it. *)
Lemma step_cases (c : call) (self self' : Blockchain) (b : Block) :
  last (chain self) = Some b ->
  step c self = Some self' ->
  match c with
  | Submit sd rc am => self' = appended (mkTransaction sd rc am) self
  | Mine fuel now =>
      exists p, proof_of_work fuel (proof b) = Some p /\
        self' = sealed (next_block p now (appended reward self) b)
                       (appended reward self)
  | Seal p now => self' = sealed (next_block p now self b) self
  end.
Proof.
  intros Hlast Hstep. unfold step, do_call in Hstep. destruct c as [sd rc am|fuel now|p now].
  - unfold bind in Hstep. rewrite (add_transaction_returns _ _ _ _ _ Hlast) in Hstep.
    cbn in Hstep. congruence.
  - destruct (proof_of_work fuel (proof b)) as [p|] eqn:Hpow.
    + unfold bind in Hstep. rewrite (mine_block_gui_returns _ _ _ _ _ Hlast Hpow) in Hstep.
      cbn in Hstep. exists p. split; congruence.
    + unfold bind, mine_block_gui, bind, last_block in Hstep.
      rewrite Hlast in Hstep. unfold ret in Hstep.
      cbv beta iota in Hstep. rewrite Hpow in Hstep. discriminate.
  - unfold bind in Hstep. rewrite (create_block_returns _ _ _ _ Hlast) in Hstep.
    cbn in Hstep. congruence.
Qed.


(** ** The store *)

Lemma deref_insert_eq (h : gmap loc (list Transaction)) (l : loc)
    (ts : list Transaction) :
  deref (<[l := ts]> h) l = ts.
Proof. unfold deref. rewrite lookup_insert_eq. reflexivity. Qed.

Lemma deref_insert_ne (h : gmap loc (list Transaction)) (l l' : loc)
    (ts : list Transaction) :
  l <> l' -> deref (<[l := ts]> h) l' = deref h l'.
Proof. intros Hne. unfold deref. rewrite lookup_insert_ne by assumption. reflexivity. Qed.

Lemma fresh_not_allocated (h : gmap loc (list Transaction)) (l : loc) :
  is_Some (h !! l) -> l <> fresh (dom h).
Proof.
  intros Hl ->. apply elem_of_dom in Hl. exact (is_fresh (dom h) Hl).
Qed.

(** The hash of a block depends on the store through the transactions of
    the block only. *)
Lemma hash_ext (h h' : gmap loc (list Transaction)) (b b' : Block) :
  index b = index b' -> timestamp b = timestamp b' ->
  deref h (transactions b) = deref h' (transactions b') ->
  proof b = proof b' -> previous_hash b = previous_hash b' ->
  hash h b = hash h' b'.
Proof.
  intros Hi Ht Htx Hp Hh. unfold hash, to_dict.
  rewrite Hi, Ht, Htx, Hp, Hh. reflexivity.
Qed.

(** ** What a call keeps *)

Lemma extends_refl (self : Blockchain) : extends self self.
Proof. split; [exists []; rewrite app_nil_r; reflexivity | reflexivity]. Qed.

Lemma extends_trans (s1 s2 s3 : Blockchain) :
  extends s1 s2 -> extends s2 s3 -> extends s1 s3.
Proof.
  intros [[m1 Hc1] Ht1] [[m2 Hc2] Ht2]. split.
  - exists (m1 ++ m2). rewrite Hc2, Hc1, app_assoc. reflexivity.
  - intros b Hb. rewrite Ht2, Ht1; [reflexivity | assumption |].
    rewrite Hc1. apply elem_of_app. left. assumption.
Qed.

Lemma appended_extends (t : Transaction) (self : Blockchain) :
  separated self -> extends self (appended t self).
Proof.
  intros [_ Hsep]. split.
  - exists []. cbn. rewrite app_nil_r. reflexivity.
  - intros b Hb. unfold block_transactions, appended. cbn.
    apply deref_insert_ne. intros Heq. apply (Hsep b Hb). congruence.
Qed.

Lemma sealed_extends (b : Block) (self : Blockchain) :
  separated self -> extends self (sealed b self).
Proof.
  intros [_ Hsep]. split.
  - exists [b]. reflexivity.
  - intros b0 Hb0. unfold block_transactions, sealed. cbn.
    apply deref_insert_ne. intros Heq.
    apply (fresh_not_allocated (heap self) (transactions b0)); [| congruence].
    apply (Hsep b0 Hb0).
Qed.


Lemma hash_extends (self self' : Blockchain) (b : Block) :
  extends self self' -> b ∈ chain self -> hash (heap self') b = hash (heap self) b.
Proof.
  intros [_ Htx] Hb. apply hash_ext; try reflexivity. apply (Htx b Hb).
Qed.

Lemma appended_invariant (t : Transaction) (self : Blockchain) :
  invariant self -> invariant (appended t self).
Proof.
  intros [Hne Hidx Hsep Hch].
  pose proof (appended_extends t self Hsep) as Hext.
  split.
  - exact Hne.
  - exact Hidx.
  - destruct Hsep as [Hpend Hblocks]. split.
    + cbn. rewrite lookup_insert_eq. eauto.
    + intros b Hb. destruct (Hblocks b Hb) as [Halloc Hneq]. split; [| exact Hneq].
      cbn. rewrite lookup_insert_ne by congruence. exact Halloc.
  - intros i b b' Hb Hb'. cbn in Hb, Hb'.
    rewrite (Hch i b b' Hb Hb'). symmetry.
    apply (hash_extends self (appended t self) b Hext).
    apply list_elem_of_lookup. eauto.
Qed.

Lemma lookup_snoc_cases (l : list Block) (x b : Block) (i : nat) :
  (l ++ [x]) !! i = Some b ->
  l !! i = Some b \/ (i = length l /\ b = x).
Proof.
  intros Hl. apply lookup_app_Some in Hl as [Hl | [Hge Hl]]; [left; assumption |].
  right. apply list_lookup_singleton_Some in Hl as [Hi ->]. split; [lia | reflexivity].
Qed.

Lemma sealed_invariant (p : Z) (now : float) (self : Blockchain) (b0 : Block) :
  invariant self -> last (chain self) = Some b0 ->
  invariant (sealed (next_block p now self b0) self).
Proof.
  intros [Hne Hidx Hsep Hch] Hlast.
  pose proof (sealed_extends (next_block p now self b0) self Hsep) as Hext.
  destruct Hsep as [Hpend Hblocks].
  split.
  - cbn. intros Hnil. apply app_eq_nil in Hnil as [_ Hnil]. discriminate.
  - intros i b Hb. cbn in Hb. apply lookup_snoc_cases in Hb as [Hb | [-> ->]].
    + exact (Hidx i b Hb).
    + reflexivity.
  - split.
    + cbn. rewrite lookup_insert_eq. eauto.
    + intros b Hb. cbn in Hb. cbn. apply elem_of_app in Hb as [Hb | Hb].
      * destruct (Hblocks b Hb) as [Halloc _].
        pose proof (fresh_not_allocated _ _ Halloc) as Hfresh.
        split; [| exact Hfresh].
        rewrite lookup_insert_ne by congruence. exact Halloc.
      * apply list_elem_of_singleton in Hb as ->. cbn.
        pose proof (fresh_not_allocated _ _ Hpend) as Hfresh.
        split; [| exact Hfresh].
        rewrite lookup_insert_ne by congruence. exact Hpend.
  - intros i b b' Hb Hb'. cbn in Hb, Hb'.
    apply lookup_snoc_cases in Hb' as [Hb' | [Hi ->]].
    + assert (Hold : chain self !! i = Some b).
      { apply lookup_snoc_cases in Hb as [Hb | [-> _]]; [assumption |].
        apply lookup_lt_Some in Hb'. lia. }
      rewrite (Hch i b b' Hold Hb'). symmetry.
      apply (hash_extends _ _ b Hext). apply list_elem_of_lookup. eauto.
    + assert (Hold : chain self !! i = Some b).
      { apply lookup_snoc_cases in Hb as [Hb | [-> _]]; [assumption | lia]. }
      assert (b = b0) as ->.
      { rewrite last_lookup in Hlast. rewrite <- Hi in Hlast. cbn in Hlast. congruence. }
      cbn. symmetry.
      apply (hash_extends _ _ b0 Hext). apply list_elem_of_lookup. eauto.
Qed.


Lemma step_invariant (c : call) (self self' : Blockchain) :
  invariant self -> step c self = Some self' ->
  invariant self' /\ extends self self'.
Proof.
  intros Hinv Hstep.
  destruct (last_nonempty self (inv_nonempty self Hinv)) as [b Hlast].
  pose proof (step_cases c self self' b Hlast Hstep) as Hcases.
  destruct c as [sd rc am|fuel now|p now].
  - subst self'. split.
    + apply appended_invariant. assumption.
    + apply appended_extends. apply Hinv.
  - destruct Hcases as (p & _ & ->).
    pose proof (appended_invariant reward self Hinv) as Hinv1.
    split.
    + apply sealed_invariant; assumption.
    + apply (extends_trans self (appended reward self)).
      * apply appended_extends. apply Hinv.
      * apply sealed_extends. apply Hinv1.
  - subst self'. split.
    + apply sealed_invariant; assumption.
    + apply sealed_extends. apply Hinv.
Qed.

Lemma run_invariant (cs : list call) (self self' : Blockchain) :
  invariant self -> run cs self = Some self' ->
  invariant self' /\ extends self self'.
Proof.
  revert self. induction cs as [|c cs IH]; intros self Hinv Hrun; cbn in Hrun.
  - injection Hrun as <-. split; [assumption | apply extends_refl].
  - destruct (step c self) as [self1|] eqn:Hstep; [| discriminate].
    destruct (step_invariant c self self1 Hinv Hstep) as [Hinv1 Hext1].
    destruct (IH self1 Hinv1 Hrun) as [Hinv' Hext'].
    split; [assumption | exact (extends_trans _ _ _ Hext1 Hext')].
Qed.

(** The first block, which [__init__] seals with proof 1 and previous
    hash "0". *)
Lemma new_Blockchain_sealed (now : float) :
  init now blank = (Returned tt, sealed (mkBlock 1 now 0%nat 1 "0") blank).
Proof. reflexivity. Qed.

Lemma new_Blockchain_invariant (now : float) : invariant (new_Blockchain now).
Proof.
  unfold new_Blockchain. rewrite new_Blockchain_sealed. cbn [snd].
  assert (Halloc : is_Some (heap blank !! 0%nat)).
  { cbn. rewrite lookup_singleton_eq. eauto. }
  pose proof (fresh_not_allocated _ _ Halloc) as Hfresh.
  split.
  - discriminate.
  - intros [|i] b Hb; cbn in Hb; [| discriminate]. injection Hb as <-. reflexivity.
  - split.
    + cbn. rewrite lookup_insert_eq. eauto.
    + intros b Hb. cbn in Hb. apply list_elem_of_singleton in Hb as ->. cbn.
      split; [| exact Hfresh].
      rewrite lookup_insert_ne by (intros Heq; apply Hfresh; symmetry; exact Heq).
      exact Halloc.
  - intros i b b' _ Hb'. cbn in Hb'. discriminate.
Qed.

Lemma step_proofs_valid (c : call) (self self' : Blockchain) :
  chain self <> [] -> proofs_valid self -> submit_or_mine c = true ->
  step c self = Some self' -> proofs_valid self'.
Proof.
  intros Hne Hvalid Hc Hstep.
  destruct (last_nonempty self Hne) as [b0 Hlast].
  pose proof (step_cases c self self' b0 Hlast Hstep) as Hcases.
  destruct c as [sd rc am|fuel now|p now]; [| | discriminate].
  - subst self'. exact Hvalid.
  - destruct Hcases as (p & Hpow & ->).
    apply proof_of_work_from_sound in Hpow as (Hp & _ & _).
    intros i b b' Hb Hb'. cbn in Hb, Hb'.
    apply lookup_snoc_cases in Hb' as [Hb' | [Hi ->]].
    + apply (Hvalid i b b'); [| assumption].
      apply lookup_snoc_cases in Hb as [Hb | [-> _]]; [assumption |].
      apply lookup_lt_Some in Hb'. lia.
    + assert (Hold : chain self !! i = Some b).
      { apply lookup_snoc_cases in Hb as [Hb | [-> _]]; [assumption | lia]. }
      assert (b = b0) as ->.
      { rewrite last_lookup in Hlast. rewrite <- Hi in Hlast. cbn in Hlast. congruence. }
      exact Hp.
Qed.


(** ** The ledger *)

(** C6. A new [Blockchain] is built without an exception; its chain is one
    block, whose previous hash is "0", whose index is 1 and whose proof is
    1, and its pending queue is empty. *)
Theorem genesis_block (now : float) :
  init now blank = (Returned tt, new_Blockchain now) /\
  exists g : Block,
    chain (new_Blockchain now) = [g] /\
    previous_hash g = "0" /\ index g = 1 /\ proof g = 1 /\
    pending (new_Blockchain now) = [].
Proof.
  unfold new_Blockchain. rewrite new_Blockchain_sealed. split; [reflexivity |].
  exists (mkBlock 1 now 0%nat 1 "0"). cbn [snd].
  split; [reflexivity |]. split; [reflexivity |]. split; [reflexivity |].
  split; [reflexivity |]. unfold pending, sealed. cbn. apply deref_insert_eq.
Qed.

(** C1. In every ledger that calls (submit, mine, and seal as well) make of
    a new [Blockchain], each block after the first holds, as its previous
    hash, the hash of the block before it. *)
Theorem hash_chaining (now : float) (cs : list call) (self : Blockchain) :
  run cs (new_Blockchain now) = Some self ->
  forall (i : nat) (b b' : Block),
    chain self !! i = Some b -> chain self !! S i = Some b' ->
    previous_hash b' = hash (heap self) b.
Proof.
  intros Hrun.
  destruct (run_invariant cs _ self (new_Blockchain_invariant now) Hrun) as [Hinv _].
  exact (inv_chained self Hinv).
Qed.

(** C7. In every ledger that submit, mine and seal calls make of a new
    [Blockchain], the chain has a block, and the block at each position has
    that position, counted from 1, as its index. *)
Theorem monotonic_indices (now : float) (cs : list call) (self : Blockchain) :
  run cs (new_Blockchain now) = Some self ->
  chain self <> [] /\
  forall (i : nat) (b : Block),
    chain self !! i = Some b -> index b = Z.of_nat i + 1.
Proof.
  intros Hrun.
  destruct (run_invariant cs _ self (new_Blockchain_invariant now) Hrun) as [Hinv _].
  split; [exact (inv_nonempty self Hinv) | exact (inv_indexed self Hinv)].
Qed.




(** C5, as the code has it. On a ledger with a block in it,
    [add_transaction] puts one transaction at the end of the pending queue,
    leaves the chain as it is, and returns the index of the last block
    plus 1. *)
Theorem add_transaction_position (sd rc : string) (am : number)
    (self : Blockchain) (b : Block) :
  last (chain self) = Some b ->
  exists self' : Blockchain,
    add_transaction sd rc am self = (Returned (index b + 1), self') /\
    pending self' = pending self ++ [mkTransaction sd rc am] /\
    chain self' = chain self.
Proof.
  intros Hlast. exists (appended (mkTransaction sd rc am) self). split; [| split].
  - exact (add_transaction_returns sd rc am self b Hlast).
  - unfold pending, appended. cbn. apply deref_insert_eq.
  - reflexivity.
Qed.

(** C8. A block that is in the chain of a ledger made from a new
    [Blockchain] is still there, at its place and with every field as it
    was, after any further calls, and so are its transactions. *)
Theorem sealed_block_stable (now : float) (cs cs' : list call)
    (self self' : Blockchain) (i : nat) (b : Block) :
  run cs (new_Blockchain now) = Some self ->
  chain self !! i = Some b ->
  run cs' self = Some self' ->
  chain self' !! i = Some b /\
  block_transactions self' b = block_transactions self b.
Proof.
  intros Hrun Hb Hrun'.
  destruct (run_invariant cs _ self (new_Blockchain_invariant now) Hrun) as [Hinv _].
  destruct (run_invariant cs' self self' Hinv Hrun') as [_ [[more Hchain] Htx]].
  split.
  - rewrite Hchain. apply lookup_app_l_Some. assumption.
  - apply Htx. apply list_elem_of_lookup. eauto.
Qed.




End Properties.

(** ** The properties on sample ledgers *)

Example sha256_abc :
  SHA256.hexdigest (encode "abc")
  = "ba7816bf8f01cfea414140de5dae2223b00361a396177a9cb410ff61f20015ad".
Proof. vm_compute. reflexivity. Qed.


Example sha256_two_blocks :
  SHA256.hexdigest
    (encode "abcdbcdecdefdefgefghfghighijhijkijkljklmklmnlmnomnopnopq")
  = "248d6a61d20638b8e5c026930c3e6039a33ce45964ff2167f6ecedd419db06c1".
Proof. vm_compute. reflexivity. Qed.

(** The proof the search finds from the proof 1 of the first block is 72608;
    that it is valid is one digest, that no number below it is takes the
    72608 others. *)
Example valid_proof_1_72608 : valid_proof 1 72608 = true.
Proof. vm_compute. reflexivity. Qed.

Example float_repr_samples :
  map float_repr [Sample.t0; Sample.t1; Sample.t2; Sample.ten]
  = ["1730000000.0"; "1730000060.5"; "1730000120.25"; "10.0"].
Proof. vm_compute. reflexivity. Qed.

Example str_genesis :
  repr (to_dict (heap Sample.ledger0) Sample.genesis)
  = "{'index': 1, 'timestamp': 1730000000.0, 'transactions': [], 'proof': 1, 'previous_hash': '0'}".
Proof. vm_compute. reflexivity. Qed.

Example hash_genesis :
  hash (heap Sample.ledger0) Sample.genesis
  = "e91dad5087b967f407bce933468bb331c3535034d25d6ae8a1806c054f28b50f".
Proof. vm_compute. reflexivity. Qed.

Example str_block2 :
  repr (to_dict (heap Sample.ledger2) Sample.block2)
  = "{'index': 2, 'timestamp': 1730000060.5, 'transactions': [{'sender': 'Alice', 'recipient': 'Bob', 'amount': 10.0}], 'proof': 72608, 'previous_hash': 'e91dad5087b967f407bce933468bb331c3535034d25d6ae8a1806c054f28b50f'}".
Proof. vm_compute. reflexivity. Qed.

Example hash_block2 :
  hash (heap Sample.ledger2) Sample.block2
  = "ce7fd88f4aa5d2c90022b7cfc6ba3dbaa1463720564a4f9037f7379484ea1f5d".
Proof. vm_compute. reflexivity. Qed.

(** Mining on a ledger whose last proof is 8848 seals a block with proof 4,
    which is valid for 8848. *)
Example mined_proof_valid :
  exists self' : Blockchain,
    step (Mine 5 Sample.t1) Sample.ledger8848 = Some self' /\
    map proof (chain self') = [8848; 4] /\
    proofs_valid self'.
Proof.
  eexists. split; [vm_compute; reflexivity |]. split; [reflexivity |].
  apply (step_proofs_valid (Mine 5 Sample.t1) Sample.ledger8848).
  - discriminate.
  - intros i b b' _ Hb'. destruct i; discriminate.
  - reflexivity.
  - vm_compute. reflexivity.
Qed.

Lemma hash_chaining_witness :
  run Sample.calls (new_Blockchain Sample.t0) = Some Sample.ledger4 /\
  chain Sample.ledger4 !! 1%nat = Some Sample.block2 /\
  chain Sample.ledger4 !! 2%nat = Some Sample.block3 /\
  previous_hash Sample.block3 = hash (heap Sample.ledger4) Sample.block2.
Proof.
  split; [reflexivity |]. split; [reflexivity |]. split; [reflexivity |].
  exact (hash_chaining Sample.t0 Sample.calls Sample.ledger4 eq_refl 1%nat
           Sample.block2 Sample.block3 eq_refl eq_refl).
Defined.




Lemma add_transaction_position_witness :
  last (chain Sample.ledger0) = Some Sample.genesis /\
  exists self' : Blockchain,
    add_transaction "Alice" "Bob" (Float Sample.ten) Sample.ledger0
    = (Returned 2, self') /\
    pending self' = [Sample.alice_bob] /\
    chain self' = [Sample.genesis].
Proof.
  split; [reflexivity |].
  exact (add_transaction_position "Alice" "Bob" (Float Sample.ten)
           Sample.ledger0 Sample.genesis eq_refl).
Defined.

(** C5, as the claim has it, fails on a new ledger: the last block has index
    1, and the call returns 2, not 3. *)
Lemma add_transaction_position_counterexample :
  last (chain Sample.ledger0) = Some Sample.genesis /\
  index Sample.genesis + 2 = 3 /\
  fst (add_transaction "Alice" "Bob" (Float Sample.ten) Sample.ledger0) = Returned 2 /\
  fst (add_transaction "Alice" "Bob" (Float Sample.ten) Sample.ledger0)
  <> Returned (index Sample.genesis + 2).
Proof.
  split; [reflexivity |]. split; [reflexivity |].
  rewrite (add_transaction_returns "Alice" "Bob" (Float Sample.ten)
             Sample.ledger0 Sample.genesis eq_refl).
  split; [reflexivity | discriminate].
Qed.

Lemma monotonic_indices_witness :
  run Sample.calls (new_Blockchain Sample.t0) = Some Sample.ledger4 /\
  chain Sample.ledger4 <> [] /\
  forall (i : nat) (b : Block),
    chain Sample.ledger4 !! i = Some b -> index b = Z.of_nat i + 1.
Proof.
  split; [reflexivity |].
  exact (monotonic_indices Sample.t0 Sample.calls Sample.ledger4 eq_refl).
Defined.

Lemma sealed_block_stable_witness :
  run Sample.calls (new_Blockchain Sample.t0) = Some Sample.ledger4 /\
  chain Sample.ledger4 !! 1%nat = Some Sample.block2 /\
  run Sample.more_calls Sample.ledger4 = Some Sample.ledger7 /\
  chain Sample.ledger7 !! 1%nat = Some Sample.block2 /\
  block_transactions Sample.ledger7 Sample.block2
  = block_transactions Sample.ledger4 Sample.block2.
Proof.
  split; [reflexivity |]. split; [reflexivity |]. split; [reflexivity |].
  exact (sealed_block_stable Sample.t0 Sample.calls Sample.more_calls
           Sample.ledger4 Sample.ledger7 1%nat Sample.block2
           eq_refl eq_refl eq_refl).
Defined.



(** * More of the ledger *)

Section Ledger_runs.

Context `{Repr}.

(** ** Calls that raise, and calls that do not *)

Lemma mine_block_gui_out_of_fuel (fuel : nat) (now : float) (self : Blockchain)
    (b : Block) :
  last (chain self) = Some b ->
  proof_of_work fuel (proof b) = None ->
  mine_block_gui fuel now self = (OutOfFuel, self).
Proof.
  intros Hlast Hpow. unfold mine_block_gui, bind at 1 2, last_block.
  rewrite Hlast. unfold ret at 1. cbv beta iota. rewrite Hpow. reflexivity.
Qed.

Lemma mine_block_gui_raises (fuel : nat) (now : float) (self : Blockchain) :
  chain self = [] -> mine_block_gui fuel now self = (Raised IndexError, self).
Proof.
  intros Hnil. unfold mine_block_gui, bind at 1 2, last_block.
  rewrite Hnil. reflexivity.
Qed.

(** On a ledger whose chain is empty, [add_transaction] raises [IndexError]
    when the transaction is already in the pending queue; [create_block]
    without a previous hash, and mining, raise it with the ledger as it
    was. *)
Theorem empty_chain_raises (self : Blockchain) (sd rc : string) (am : number)
    (p : Z) (fuel : nat) (now : float) :
  chain self = [] ->
  add_transaction sd rc am self
  = (Raised IndexError, appended (mkTransaction sd rc am) self) /\
  pending (appended (mkTransaction sd rc am) self)
  = pending self ++ [mkTransaction sd rc am] /\
  create_block p None now self = (Raised IndexError, self) /\
  mine_block_gui fuel now self = (Raised IndexError, self).
Proof.
  intros Hnil. split; [| split; [| split]].
  - apply add_transaction_raises. assumption.
  - unfold pending, appended. cbn. apply deref_insert_eq.
  - apply create_block_raises. assumption.
  - apply mine_block_gui_raises. assumption.
Qed.



(** ** What the blocks hold *)

(** A new list changes the contents of no address. *)
Lemma deref_new_list (h : gmap loc (list Transaction)) (l : loc) :
  deref (<[fresh (dom h) := []]> h) l = deref h l.
Proof.
  destruct (decide (fresh (dom h) = l)) as [<- | Hne].
  - rewrite deref_insert_eq. unfold deref.
    pose proof (is_fresh (dom h)) as Hfresh.
    apply not_elem_of_dom in Hfresh. rewrite Hfresh. reflexivity.
  - apply deref_insert_ne. assumption.
Qed.

Lemma hash_sealed (b0 b : Block) (self : Blockchain) :
  hash (heap (sealed b0 self)) b = hash (heap self) b.
Proof. apply hash_ext; try reflexivity. cbn. apply deref_new_list. Qed.







(** ** No two blocks share a list *)

Lemma step_distinct (c : call) (self self' : Blockchain) :
  invariant self -> NoDup (map transactions (chain self)) ->
  step c self = Some self' -> NoDup (map transactions (chain self')).
Proof.
  intros Hinv Hnd Hstep.
  destruct (last_nonempty self (inv_nonempty self Hinv)) as [b Hlast].
  pose proof (step_cases c self self' b Hlast Hstep) as Hcases.
  assert (Hseal : forall nb, transactions nb = pending_transactions self ->
                    NoDup (map transactions (chain self ++ [nb]))).
  { intros nb Hnb. rewrite map_app. apply NoDup_app. split; [exact Hnd |]. split.
    - intros l Hl Hl'. cbn in Hl'. apply list_elem_of_singleton in Hl'. subst l.
      apply list_elem_of_fmap in Hl as (b' & Heq & Hb').
      destruct (inv_separated self Hinv) as [_ Hsep].
      apply (Hsep b' Hb'). congruence.
    - cbn. apply NoDup_singleton. }
  destruct c as [sd rc am|fuel now|p now].
  - subst self'. exact Hnd.
  - destruct Hcases as (p & _ & ->). apply Hseal. reflexivity.
  - subst self'. apply Hseal. reflexivity.
Qed.

(** In a ledger that calls made of a new [Blockchain], the transaction lists
    of the blocks are allocated lists, each the list of one block only, and
    none of them is the pending list. *)
Theorem block_lists_distinct (now : float) (cs : list call) (self : Blockchain) :
  run cs (new_Blockchain now) = Some self ->
  NoDup (pending_transactions self :: map transactions (chain self)) /\
  forall b : Block, b ∈ chain self -> is_Some (heap self !! transactions b).
Proof.
  intros Hrun.
  assert (Hboth : invariant self /\ NoDup (map transactions (chain self))).
  { revert Hrun. generalize (new_Blockchain_invariant now).
    assert (Hnd : NoDup (map transactions (chain (new_Blockchain now)))).
    { unfold new_Blockchain. rewrite new_Blockchain_sealed. cbn. apply NoDup_singleton. }
    revert Hnd. generalize (new_Blockchain now) as self0. clear now.
    induction cs as [|c cs IH]; intros self0 Hnd Hinv Hrun; cbn [run] in Hrun.
    - injection Hrun as <-. split; assumption.
    - destruct (step c self0) as [self1|] eqn:Hstep; [| discriminate].
      apply (IH self1); [| | assumption].
      + exact (step_distinct c self0 self1 Hinv Hnd Hstep).
      + apply (step_invariant c self0 self1 Hinv Hstep). }
  destruct Hboth as [Hinv Hnd]. destruct (inv_separated self Hinv) as [_ Hsep].
  split.
  - apply NoDup_cons. split; [| exact Hnd].
    intros Hin. apply list_elem_of_fmap in Hin as (b & Heq & Hb).
    apply (Hsep b Hb). congruence.
  - intros b Hb. apply (Hsep b Hb).
Qed.

(** ** What [create_block] does not check *)

Lemma create_block_given (p : Z) (s : string) (now : float) (self : Blockchain) :
  s <> EmptyString ->
  create_block p (Some s) now self =
    let block := mkBlock (Z.of_nat (length (chain self)) + 1) now
                         (pending_transactions self) p s in
    (Returned block, sealed block self).
Proof.
  intros Hs. destruct s as [|a s]; [contradiction |]. reflexivity.
Qed.

Lemma last_two (l : list Block) (b nb : Block) :
  last l = Some b ->
  exists i : nat, (l ++ [nb]) !! i = Some b /\ (l ++ [nb]) !! S i = Some nb.
Proof.
  intros Hlast. rewrite last_lookup in Hlast.
  assert (Hlen : (0 < length l)%nat).
  { destruct l; [discriminate | cbn; lia]. }
  exists (pred (length l)). split.
  - apply lookup_app_l_Some. assumption.
  - replace (S (pred (length l))) with (length l) by lia.
    rewrite lookup_app_r by lia. rewrite Nat.sub_diag. reflexivity.
Qed.

(** [create_block] takes a previous hash that is not empty as it is given,
    on any ledger, without an exception; when it is not the hash of the last
    block, the chain it leaves is not hash-chained. *)
Theorem given_previous_hash_unchecked (p : Z) (s : string) (now : float)
    (self : Blockchain) (b : Block) :
  s <> EmptyString -> last (chain self) = Some b -> s <> hash (heap self) b ->
  exists (block : Block) (self' : Blockchain),
    create_block p (Some s) now self = (Returned block, self') /\
    last (chain self') = Some block /\
    previous_hash block = s /\
    ~ hash_chained self'.
Proof.
  intros Hs Hlast Hne. eexists _, _. split; [exact (create_block_given p s now self Hs) |].
  cbn zeta. split; [cbn; apply last_snoc |]. split; [reflexivity |].
  intros Hchained.
  destruct (last_two (chain self) b
              (mkBlock (Z.of_nat (length (chain self)) + 1) now
                       (pending_transactions self) p s) Hlast) as (i & Hb & Hnb).
  specialize (Hchained i _ _ Hb Hnb). cbn [previous_hash] in Hchained.
  rewrite hash_sealed in Hchained. contradiction.
Qed.


(** ** Previous hashes *)

Lemma hex_digit_is_hex (x : Z) : is_hex (SHA256.hex_digit x) = true.
Proof.
  unfold SHA256.hex_digit, is_hex.
  set (digits := list_ascii_of_string "0123456789abcdef").
  destruct (nth_in_or_default (Z.to_nat x) digits "0"%char) as [Hin | ->].
  - apply existsb_exists. exists (nth (Z.to_nat x) digits "0"%char).
    split; [assumption | apply Ascii.eqb_refl].
  - reflexivity.
Qed.

Lemma hexdigest_is_hex (msg : list byte) :
  forallb is_hex (list_ascii_of_string (SHA256.hexdigest msg)) = true.
Proof.
  unfold SHA256.hexdigest. rewrite list_ascii_of_string_of_list_ascii.
  apply forallb_forall. intros c Hc.
  apply in_concat in Hc as (word & Hword & Hc).
  apply in_map_iff in Hword as (x & <- & _).
  unfold SHA256.hex_word in Hc. apply in_map_iff in Hc as (i & <- & _).
  apply hex_digit_is_hex.
Qed.

(** In a ledger that calls made of a new [Blockchain], the previous hash of
    the first block is "0", and that of every other block is 64 characters,
    each a digit or a letter from a to f: no block holds an empty one. *)
Theorem previous_hash_shape (now : float) (cs : list call) (self : Blockchain)
    (i : nat) (b : Block) :
  run cs (new_Blockchain now) = Some self ->
  chain self !! i = Some b ->
  match i with
  | O => previous_hash b = "0"
  | S _ => String.length (previous_hash b) = 64%nat /\
           forallb is_hex (list_ascii_of_string (previous_hash b)) = true
  end.
Proof.
  intros Hrun Hb.
  destruct (run_invariant cs _ self (new_Blockchain_invariant now) Hrun)
    as [Hinv [[more Hchain] _]].
  destruct i as [|i].
  - rewrite Hchain in Hb. unfold new_Blockchain in Hb.
    rewrite new_Blockchain_sealed in Hb. cbn in Hb. injection Hb as <-. reflexivity.
  - destruct (lookup_lt_is_Some_2 (chain self) i) as [b0 Hb0].
    { apply lookup_lt_Some in Hb. lia. }
    rewrite (inv_chained self Hinv i b0 b Hb0 Hb). unfold hash.
    split; [apply hexdigest_length | apply hexdigest_is_hex].
Qed.

End Ledger_runs.

(** ** The search *)


(** * The window *)

Section Window_properties.

Context `{Repr} `{Library}.

(** When [float] refuses the text of the amount entry, [add_transaction_gui]
    returns with the ledger and the chain text as they were: it has shown
    the error box and emptied the three entries. *)
Theorem rejected_amount_keeps_ledger (st : Program) :
  float_of_str (amount_entry (window st)) = None ->
  exists w' : Window,
    add_transaction_gui st = (Returned tt, mkProgram w' (blockchain st)) /\
    boxes w'
    = boxes (window st)
      ++ [ShowError "Error" "Invalid amount. Please enter a valid number."] /\
    sender_entry w' = EmptyString /\ recipient_entry w' = EmptyString /\
    amount_entry w' = EmptyString /\
    chain_text w' = chain_text (window st) /\ views w' = views (window st).
Proof.
  intros Hparse. eexists. unfold add_transaction_gui. rewrite Hparse.
  unfold gbind, on_window. cbn. repeat split.
Qed.

Lemma add_transaction_gui_accepted (st : Program) (x : float) (b : Block) :
  float_of_str (amount_entry (window st)) = Some x ->
  last (chain (blockchain st)) = Some b ->
  add_transaction_gui st
  = (Returned tt,
     mkProgram
       (clear_entries (show (ShowInfo "Success" "Transaction added successfully!")
                            (window st)))
       (appended (mkTransaction (sender_entry (window st))
                                (recipient_entry (window st)) (Float x))
                 (blockchain st))).
Proof.
  intros Hparse Hlast. unfold add_transaction_gui. rewrite Hparse.
  unfold gbind, on_blockchain, on_window.
  rewrite (add_transaction_returns _ _ _ _ _ Hlast). reflexivity.
Qed.

(** The ledger after an event is the ledger before it, or the ledger after a
    call the window makes. *)
Lemma handle_ledger (ev : event) (st st' : Program) :
  handle ev st = Some st' ->
  blockchain st' = blockchain st \/
  exists c : call, from_window c = true /\
                   step c (blockchain st) = Some (blockchain st').
Proof.
  unfold handle. destruct ev as [text|text|text| |fuel now|]; cbn [callback].
  - intros [= <-]. left. reflexivity.
  - intros [= <-]. left. reflexivity.
  - intros [= <-]. left. reflexivity.
  - unfold add_transaction_gui.
    destruct (float_of_str (amount_entry (window st))) as [x|].
    + intros Hst. right.
      exists (Submit (sender_entry (window st)) (recipient_entry (window st)) (Float x)).
      split; [reflexivity |]. unfold step, do_call, bind.
      unfold gbind, on_blockchain, on_window in Hst.
      destruct (add_transaction (sender_entry (window st))
                  (recipient_entry (window st)) (Float x) (blockchain st))
        as [[n|e|] self'] eqn:Hadd; cbn in Hst |- *.
      * injection Hst as <-. reflexivity.
      * injection Hst as <-. reflexivity.
      * discriminate.
    + unfold gbind, on_window. cbn. intros [= <-]. left. reflexivity.
  - intros Hst. right. exists (Mine fuel now). split; [reflexivity |].
    unfold step, do_call, bind.
    unfold mine_block_gui_shown, gbind, on_blockchain, on_window, display_chain in Hst.
    destruct (mine_block_gui fuel now (blockchain st)) as [[block|e|] self'] eqn:Hmine;
      cbn in Hst |- *.
    + injection Hst as <-. reflexivity.
    + injection Hst as <-. reflexivity.
    + discriminate.
  - unfold view_transactions, on_window.
    destruct (pending (blockchain st)); intros [= <-]; left; reflexivity.
Qed.

Lemma run_snoc (cs : list call) (c : call) (self self1 self' : Blockchain) :
  run cs self = Some self1 -> step c self1 = Some self' ->
  run (cs ++ [c]) self = Some self'.
Proof.
  revert self. induction cs as [|c0 cs IH]; intros self Hrun Hstep; cbn in Hrun |- *.
  - injection Hrun as ->. rewrite Hstep. reflexivity.
  - destruct (step c0 self) as [self0|]; [| discriminate]. apply (IH self0); assumption.
Qed.

Lemma handle_all_ledger (evs : list event) (st st' : Program) (self0 : Blockchain)
    (cs0 : list call) :
  forallb from_window cs0 = true ->
  run cs0 self0 = Some (blockchain st) ->
  handle_all evs st = Some st' ->
  exists cs : list call,
    forallb from_window cs = true /\ run cs self0 = Some (blockchain st').
Proof.
  revert st cs0. induction evs as [|ev evs IH]; intros st cs0 Hcs0 Hrun0 Hall;
    cbn [handle_all] in Hall.
  - injection Hall as <-. exists cs0. split; assumption.
  - destruct (handle ev st) as [st1|] eqn:Hev; [| discriminate].
    destruct (handle_ledger ev st st1 Hev) as [Heq | (c & Hc & Hstep)].
    + apply (IH st1 cs0); [assumption | congruence | assumption].
    + apply (IH st1 (cs0 ++ [c])); [| | assumption].
      * rewrite forallb_app, Hcs0. cbn. rewrite Hc. reflexivity.
      * exact (run_snoc cs0 c self0 _ _ Hrun0 Hstep).
Qed.

(** Whatever the user does in the window, the ledger is one that calls made
    of the new [Blockchain]: submissions of [float] amounts, and mining. *)
Theorem window_ledger_is_a_run (now : float) (evs : list event) (st : Program) :
  handle_all evs (start now) = Some st ->
  exists cs : list call,
    forallb from_window cs = true /\
    run cs (new_Blockchain now) = Some (blockchain st).
Proof.
  intros Hall. apply (handle_all_ledger evs (start now) st (new_Blockchain now) []).
  - reflexivity.
  - reflexivity.
  - assumption.
Qed.

(** ** What the window shows *)

Lemma chain_display_extends (self self' : Blockchain) :
  extends self self' -> chain self' = chain self ->
  chain_display self' = chain_display self.
Proof.
  intros [_ Htx] Hchain. unfold chain_display. rewrite Hchain. f_equal.
  apply map_ext_in. intros b Hb. unfold block_info.
  rewrite (Htx b); [reflexivity |]. apply list_elem_of_In. assumption.
Qed.

Lemma mine_block_gui_shown_returns (fuel : nat) (now : float) (st : Program)
    (b : Block) (p : Z) :
  last (chain (blockchain st)) = Some b ->
  proof_of_work fuel (proof b) = Some p ->
  let self := appended reward (blockchain st) in
  let block := next_block p now self b in
  mine_block_gui_shown fuel now st
  = (Returned tt,
     mkProgram
       (set_chain_text (chain_display (sealed block self))
          (show (ShowInfo "Success"
                   ("Block " +:+ str_int (index block) +:+ " mined successfully!"))
                (window st)))
       (sealed block self)).
Proof.
  intros Hlast Hpow. cbv zeta.
  unfold mine_block_gui_shown, gbind, on_blockchain.
  rewrite (mine_block_gui_returns _ _ _ _ _ Hlast Hpow). reflexivity.
Qed.

Lemma handle_shown (ev : event) (st st' : Program) :
  invariant (blockchain st) ->
  chain_text (window st) = chain_display (blockchain st) ->
  handle ev st = Some st' ->
  invariant (blockchain st') /\
  chain_text (window st') = chain_display (blockchain st').
Proof.
  intros Hinv Hshown.
  destruct (last_nonempty _ (inv_nonempty _ Hinv)) as [b Hlast].
  unfold handle. destruct ev as [text|text|text| |fuel now|]; cbn [callback].
  - intros [= <-]. split; assumption.
  - intros [= <-]. split; assumption.
  - intros [= <-]. split; assumption.
  - destruct (float_of_str (amount_entry (window st))) as [x|] eqn:Hparse.
    + rewrite (add_transaction_gui_accepted st x b Hparse Hlast). intros [= <-].
      cbn [blockchain window]. split.
      * apply appended_invariant. assumption.
      * cbn [clear_entries show chain_text]. rewrite Hshown. symmetry.
        apply (chain_display_extends (blockchain st)); [| reflexivity].
        apply appended_extends. apply Hinv.
    + unfold add_transaction_gui. rewrite Hparse. unfold gbind, on_window. cbn.
      intros [= <-]. split; assumption.
  - destruct (proof_of_work fuel (proof b)) as [p|] eqn:Hpow.
    + rewrite (mine_block_gui_shown_returns fuel now st b p Hlast Hpow).
      intros [= <-]. cbn [blockchain window]. split; [| reflexivity].
      apply sealed_invariant; [| exact Hlast].
      apply appended_invariant. assumption.
    + unfold mine_block_gui_shown, gbind, on_blockchain.
      rewrite (mine_block_gui_out_of_fuel _ _ _ _ Hlast Hpow). discriminate.
  - unfold view_transactions, on_window.
    destruct (pending (blockchain st)); intros [= <-]; split; assumption.
Qed.

(** Whatever the user does in the window, the chain text is the display of
    the chain as it is now: every block of the ledger, each with the
    transactions it holds, and nothing else. *)
Theorem chain_text_is_current (now : float) (evs : list event) (st : Program) :
  handle_all evs (start now) = Some st ->
  chain_text (window st) = chain_display (blockchain st).
Proof.
  intros Hall.
  assert (Hboth : invariant (blockchain st) /\
                  chain_text (window st) = chain_display (blockchain st)).
  { revert Hall.
    assert (Hinv : invariant (blockchain (start now)))
      by apply new_Blockchain_invariant.
    assert (Hshown : chain_text (window (start now))
                     = chain_display (blockchain (start now))) by reflexivity.
    revert Hinv Hshown. generalize (start now) as st0.
    induction evs as [|ev evs IH]; intros st0 Hinv Hshown Hall; cbn [handle_all] in Hall.
    - injection Hall as <-. split; assumption.
    - destruct (handle ev st0) as [st1|] eqn:Hev; [| discriminate].
      destruct (handle_shown ev st0 st1 Hinv Hshown Hev) as [Hinv1 Hshown1].
      exact (IH st1 Hinv1 Hshown1 Hall). }
  apply Hboth.
Qed.



End Window_properties.

(** ** More on sample ledgers, and the window on sample events *)

Example float_of_str_samples :
  map float_of_str ["10"; " 1_0.0e0 "; "ten"; "1__0"; "-inf"]
  = [Some Sample.ten; Some Sample.ten; None; None; Some (S754_infinity true)].
Proof. vm_compute. reflexivity. Qed.

Example ctime_sample : ctime Sample.t0 = "Sun Oct 27 03:33:20 2024".
Proof. vm_compute. reflexivity. Qed.

Example chain_display_start :
  chain_text (window (start Sample.t0))
  = newline +:+ "        Block 1:" +:+ newline
    +:+ "        Timestamp: Sun Oct 27 03:33:20 2024" +:+ newline
    +:+ "        Transactions: []" +:+ newline
    +:+ "        Proof: 1" +:+ newline
    +:+ "        Previous Hash: 0" +:+ newline +:+ newline +:+ "        ".
Proof. vm_compute. reflexivity. Qed.

Example valid_proof_1_0 : valid_proof 1 0 = false.
Proof. vm_compute. reflexivity. Qed.

Lemma empty_chain_raises_witness :
  chain blank = [] /\
  add_transaction "Alice" "Bob" (Float Sample.ten) blank
  = (Raised IndexError, appended Sample.alice_bob blank) /\
  pending (appended Sample.alice_bob blank) = [Sample.alice_bob] /\
  create_block 5 None Sample.t0 blank = (Raised IndexError, blank) /\
  mine_block_gui 5 Sample.t0 blank = (Raised IndexError, blank).
Proof.
  split; [reflexivity |].
  exact (empty_chain_raises blank "Alice" "Bob" (Float Sample.ten) 5 5%nat
           Sample.t0 eq_refl).
Defined.




Lemma block_lists_distinct_witness :
  run Sample.calls (new_Blockchain Sample.t0) = Some Sample.ledger4 /\
  NoDup (pending_transactions Sample.ledger4
         :: map transactions (chain Sample.ledger4)) /\
  forall b : Block, b ∈ chain Sample.ledger4 ->
    is_Some (heap Sample.ledger4 !! transactions b).
Proof.
  split; [reflexivity |].
  exact (block_lists_distinct Sample.t0 Sample.calls Sample.ledger4 eq_refl).
Defined.

Lemma given_previous_hash_unchecked_witness :
  "0" <> EmptyString /\
  last (chain Sample.ledger0) = Some Sample.genesis /\
  "0" <> hash (heap Sample.ledger0) Sample.genesis /\
  exists (block : Block) (self' : Blockchain),
    create_block 5 (Some "0") Sample.t1 Sample.ledger0 = (Returned block, self') /\
    last (chain self') = Some block /\
    previous_hash block = "0" /\
    ~ hash_chained self'.
Proof.
  assert (Hs : "0" <> EmptyString) by discriminate.
  assert (Hne : "0" <> hash (heap Sample.ledger0) Sample.genesis).
  { vm_compute. discriminate. }
  split; [exact Hs |]. split; [reflexivity |]. split; [exact Hne |].
  exact (given_previous_hash_unchecked 5 "0" Sample.t1 Sample.ledger0
           Sample.genesis Hs eq_refl Hne).
Defined.


Lemma previous_hash_shape_witness :
  run Sample.calls (new_Blockchain Sample.t0) = Some Sample.ledger4 /\
  chain Sample.ledger4 !! 2%nat = Some Sample.block3 /\
  String.length (previous_hash Sample.block3) = 64%nat /\
  forallb is_hex (list_ascii_of_string (previous_hash Sample.block3)) = true.
Proof.
  split; [reflexivity |]. split; [reflexivity |].
  exact (previous_hash_shape Sample.t0 Sample.calls Sample.ledger4 2%nat
           Sample.block3 eq_refl eq_refl).
Defined.

Lemma rejected_amount_keeps_ledger_witness :
  float_of_str (amount_entry (window (Sample.typed "ten" Sample.ledger0))) = None /\
  exists w' : Window,
    add_transaction_gui (Sample.typed "ten" Sample.ledger0)
    = (Returned tt, mkProgram w' Sample.ledger0) /\
    boxes w' = [ShowError "Error" "Invalid amount. Please enter a valid number."] /\
    sender_entry w' = EmptyString /\ recipient_entry w' = EmptyString /\
    amount_entry w' = EmptyString /\
    chain_text w' = chain_display Sample.ledger0 /\ views w' = [].
Proof.
  split; [reflexivity |].
  exact (rejected_amount_keeps_ledger (Sample.typed "ten" Sample.ledger0) eq_refl).
Defined.

Lemma window_ledger_is_a_run_witness :
  handle_all Sample.events (start Sample.t0) = Some Sample.after_events /\
  exists cs : list call,
    forallb from_window cs = true /\
    run cs (new_Blockchain Sample.t0) = Some (blockchain Sample.after_events).
Proof.
  split; [reflexivity |].
  exact (window_ledger_is_a_run Sample.t0 Sample.events Sample.after_events eq_refl).
Defined.

Lemma chain_text_is_current_witness :
  handle_all Sample.events (start Sample.t0) = Some Sample.after_events /\
  chain_text (window Sample.after_events)
  = chain_display (blockchain Sample.after_events).
Proof.
  split; [reflexivity |].
  exact (chain_text_is_current Sample.t0 Sample.events Sample.after_events eq_refl).
Defined.


